(** * Washer/dryer notifier: the vibration state machine of
      [Washer_Dryer_Notifier.ino], embedded and verified.

    The sketch runs on an ESP8266: [int] and [long] are 32-bit two's
    complement, [unsigned long] is 32 bits, and [millis()] returns the low
    32 bits of the uptime in milliseconds.  Integers are modelled in [Z] with
    every conversion and wrap-around written out. *)

From Stdlib Require Import ZArith List String Bool Lia.
Import ListNotations.
Local Open Scope Z_scope.

(** ** Machine integers *)

Module Int.

(** Conversion to [unsigned long]: reduction modulo [2^32]. *)
Definition to_u32 (z : Z) : Z := z mod 2 ^ 32.

(** Conversion to [int] / [long]: the representative in [-2^31, 2^31). *)
Definition to_s32 (z : Z) : Z := (z + 2 ^ 31) mod 2 ^ 32 - 2 ^ 31.

End Int.
Import Int.

(** ** Configuration: the [#define]s of the sketch

    The header of the sketch asks the user to "adjust all thresholds and
    times", so the three tuning macros are a record; [shipped] holds the
    values in the file. *)

Record Config : Type := {
  VIBRATION_MONITORING_THRESHOLD : Z;
  VIBRATION_STOPPED_TIME_DELAY_SECONDS : Z;
  VIBRATION_COUNTER_RESET_DELAY_SECONDS : Z
}.


(** The values a configuration can take without overflowing [int]: the
    threshold leaves room for one increment, the delays in milliseconds are
    non-negative [int]s. *)
Record Config_ok (cfg : Config) : Prop := {
  threshold_range : 0 <= VIBRATION_MONITORING_THRESHOLD cfg < 2 ^ 31 - 1;
  stopped_range : 0 <= VIBRATION_STOPPED_TIME_DELAY_SECONDS cfg * 1000 < 2 ^ 31;
  reset_range : 0 <= VIBRATION_COUNTER_RESET_DELAY_SECONDS cfg * 1000 < 2 ^ 31
}.

Definition SERIAL_BAUDRATE : Z := 115200.
Definition WIFI_SSID : string := "null".
Definition WIFI_PASS : string := "null".
Definition STARTED_MESSAGE : string := "Washer started.".
Definition STOPPED_MESSAGE : string := "Washer is done.".
Definition HIGH : Z := 1.
Definition LOW : Z := 0.

(** ** The world: globals of the sketch, hardware inputs, output trace *)

(** The two [DataToMaker] objects. *)
Inductive Channel : Type := event | event2.

Definition Channel_eqb (a b : Channel) : bool :=
  match a, b with
  | event, event | event2, event2 => true
  | _, _ => false
  end.

(** Every call the sketch makes on the outside world, in program order. *)
Inductive IO : Type :=
| SerialBegin (baud : Z)
| SerialPrint (s : string)
| SerialPrintln (s : string)
| SerialPrintf (fmt : string)
| WifiMode
| WifiBegin (ssid pass : string)
| WifiStatus (connected : bool)
| PinMode
| Connect (c : Channel) (ok : bool)
| SetValue (c : Channel) (slot : Z) (msg : string)
| Post (c : Channel)
| Delay (ms : Z).

(** The global variables, lines 59-65. *)
Record Globals : Type := {
  vibrationState : Z;
  lastVibrationStateChange : Z;
  previousVibrationValue : Z;
  startedTime : Z;
  vibrationCounter : Z
}.

(** [pin] is the level on VIB_PIN, [clock] the uptime in milliseconds,
    [link] the answers that the next polls of the network ([connect()],
    [WiFi.status()]) will get, [out] the calls made so far. *)
Record World : Type := {
  mem : Globals;
  pin : bool;
  clock : Z;
  link : list bool;
  out : list IO
}.

Definition with_mem (g : Globals) (w : World) : World :=
  {| mem := g; pin := pin w; clock := clock w; link := link w; out := out w |}.

(** ** A state monad in which a poll can block

    [Blocked w] is a computation still waiting inside a retry loop when the
    answers in [link] are used up; [w] is the world at that point. *)

Inductive Result (A : Type) : Type :=
| Done (a : A) (w : World)
| Blocked (w : World).
Arguments Done {A} a w.
Arguments Blocked {A} w.

Definition M (A : Type) : Type := World -> Result A.

Definition ret {A : Type} (a : A) : M A := fun w => Done a w.

Definition bind {A B : Type} (m : M A) (k : A -> M B) : M B :=
  fun w => match m w with
           | Done a w' => k a w'
           | Blocked w' => Blocked w'
           end.

Declare Scope sketch_scope.
Delimit Scope sketch_scope with sketch.
Notation "x <- m ;; k" := (bind m (fun x => k))
  (at level 61, m at next level, right associativity) : sketch_scope.
Notation "m ;; k" := (bind m (fun _ => k))
  (at level 61, right associativity) : sketch_scope.
Local Open Scope sketch_scope.

Definition when (b : bool) (m : M unit) : M unit := if b then m else ret tt.

Definition world_of {A : Type} (r : Result A) : World :=
  match r with
  | Done _ w => w
  | Blocked w => w
  end.

(** *** Reads and writes of the globals *)

Definition get (f : Globals -> Z) : M Z := fun w => Done (f (mem w)) w.

Definition set_vibrationState (v : Z) : M unit := fun w =>
  let g := mem w in
  Done tt (with_mem {| vibrationState := v;
                       lastVibrationStateChange := lastVibrationStateChange g;
                       previousVibrationValue := previousVibrationValue g;
                       startedTime := startedTime g;
                       vibrationCounter := vibrationCounter g |} w).

Definition set_lastVibrationStateChange (v : Z) : M unit := fun w =>
  let g := mem w in
  Done tt (with_mem {| vibrationState := vibrationState g;
                       lastVibrationStateChange := v;
                       previousVibrationValue := previousVibrationValue g;
                       startedTime := startedTime g;
                       vibrationCounter := vibrationCounter g |} w).

Definition set_previousVibrationValue (v : Z) : M unit := fun w =>
  let g := mem w in
  Done tt (with_mem {| vibrationState := vibrationState g;
                       lastVibrationStateChange := lastVibrationStateChange g;
                       previousVibrationValue := v;
                       startedTime := startedTime g;
                       vibrationCounter := vibrationCounter g |} w).

Definition set_startedTime (v : Z) : M unit := fun w =>
  let g := mem w in
  Done tt (with_mem {| vibrationState := vibrationState g;
                       lastVibrationStateChange := lastVibrationStateChange g;
                       previousVibrationValue := previousVibrationValue g;
                       startedTime := v;
                       vibrationCounter := vibrationCounter g |} w).

Definition set_vibrationCounter (v : Z) : M unit := fun w =>
  let g := mem w in
  Done tt (with_mem {| vibrationState := vibrationState g;
                       lastVibrationStateChange := lastVibrationStateChange g;
                       previousVibrationValue := previousVibrationValue g;
                       startedTime := startedTime g;
                       vibrationCounter := v |} w).

(** *** The Arduino primitives the sketch calls *)

Definition emit (e : IO) : M unit := fun w =>
  Done tt {| mem := mem w; pin := pin w; clock := clock w; link := link w;
             out := out w ++ [e] |}.

(** [digitalRead(VIB_PIN)] returns HIGH or LOW. *)
Definition level (b : bool) : Z := if b then HIGH else LOW.
Definition digitalRead : M Z := fun w => Done (level (pin w)) w.

(** [millis()] is an [unsigned long]: the uptime modulo [2^32]. *)
Definition millis : M Z := fun w => Done (to_u32 (clock w)) w.

Definition delay (ms : Z) : M unit := emit (Delay ms).

(** One poll of the network: it takes the next answer of [link] and blocks
    when none is left. *)
Definition poll (log : bool -> IO) : M bool := fun w =>
  match link w with
  | [] => Blocked w
  | b :: rest =>
      Done b {| mem := mem w; pin := pin w; clock := clock w; link := rest;
                out := out w ++ [log b] |}
  end.

Definition connect (c : Channel) : M bool := poll (Connect c).
Definition WiFi_status : M bool := poll WifiStatus.
Definition setValue (c : Channel) (slot : Z) (msg : string) : M unit :=
  emit (SetValue c slot msg).
Definition post (c : Channel) : M unit := emit (Post c).

(** [abs] is the macro of the Arduino core the sketch is built with,
    [#define abs(x) ((x)>0?(x):-(x))] (in [Arduino.h], not in the
    repository): the argument is an expression, evaluated once for the test
    and once for the value; [wrap] is the wrap-around of the argument's C
    type under negation. *)
Definition ABS (wrap : Z -> Z) (x : M Z) : M Z :=
  a <- x ;;
  b <- x ;;
  ret (if 0 <? a then b else wrap (- b)).

(** [while (!c) { body }] over a poll: every iteration uses one answer, so
    a fuel one above the number of answers left is never exhausted before
    the poll itself blocks. *)
Fixpoint while_not (fuel : nat) (c : M bool) (body : M unit) : M unit :=
  match fuel with
  | O => fun w => Blocked w
  | S fuel' =>
      ok <- c ;;
      if ok then ret tt else (body ;; while_not fuel' c body)
  end.

Definition While_not (c : M bool) (body : M unit) : M unit :=
  fun w => while_not (S (List.length (link w))) c body w.

Definition and_then (a b : M bool) : M bool :=
  x <- a ;; if x then b else ret false.

(** ** The sketch *)

Section Sketch.

Variable cfg : Config.

(** [VIBRATION_..._SECONDS * 1000] is an [int] product; compared with an
    [unsigned long] it is converted to [unsigned long]. *)
Definition milliseconds (seconds : Z) : Z := to_u32 (to_s32 (seconds * 1000)).

(** The expression [millis() - lastVibrationStateChange]: the [long] is
    converted to [unsigned long] and the difference is taken modulo [2^32]. *)
Definition since_last_change : M Z :=
  t <- millis ;;
  l <- get lastVibrationStateChange ;;
  ret (to_u32 (t - to_u32 l)).

(** Lines 73-90. The arguments of the two [printf] are not recorded. *)
Definition wifiSetup : M unit :=
  emit WifiMode ;;
  emit (SerialPrintf "[WIFI] Connecting to %s ") ;;
  emit (WifiBegin WIFI_SSID WIFI_PASS) ;;
  While_not WiFi_status (emit (SerialPrint ".") ;; delay 100) ;;
  emit (SerialPrintln EmptyString) ;;
  emit (SerialPrintf "[WIFI] STATION Mode, SSID: %s, IP address: %s\n").

(** Lines 92-94. *)
Definition pinModeSetup : M unit := emit PinMode.

(** Lines 96-106. *)
Definition setup : M unit :=
  emit (SerialBegin SERIAL_BAUDRATE) ;;
  wifiSetup ;;
  pinModeSetup ;;
  set_vibrationState 1 ;;
  (t <- millis ;; set_lastVibrationStateChange (to_s32 t)) ;;
  set_previousVibrationValue 0 ;;
  set_vibrationCounter 0 ;;
  set_startedTime 0.

(** Lines 109-125. *)
Definition washerDryerNotification : M unit :=
  While_not (connect event) (emit (SerialPrint ".")) ;;
  setValue event 1 STOPPED_MESSAGE ;;
  delay 100 ;;
  post event ;;
  While_not (connect event2) (emit (SerialPrint ".")) ;;
  setValue event2 1 STOPPED_MESSAGE ;;
  delay 100 ;;
  post event2.

(** Lines 126-142. *)
Definition washerDryerStarted : M unit :=
  While_not (connect event) (emit (SerialPrint ".")) ;;
  setValue event 1 STARTED_MESSAGE ;;
  delay 100 ;;
  post event ;;
  While_not (connect event2) (emit (SerialPrint ".")) ;;
  setValue event2 1 STARTED_MESSAGE ;;
  delay 100 ;;
  post event2.

(** Lines 143-158. *)
Definition checkForVibration : M unit :=
  v <- digitalRead ;;
  p <- get previousVibrationValue ;;
  when (negb (v =? p))
    (p' <- ABS to_s32 (q <- get previousVibrationValue ;; ret (to_s32 (q - 1))) ;;
     set_previousVibrationValue p' ;;
     s <- get vibrationState ;;
     when (s =? 1)
       (c <- get vibrationCounter ;; set_vibrationCounter (to_s32 (c + 1))) ;;
     t <- millis ;;
     set_lastVibrationStateChange (to_s32 t)) ;;
  idle <- and_then (s <- get vibrationState ;; ret (s =? 1))
            (d <- ABS to_u32 since_last_change ;;
             ret (milliseconds (VIBRATION_COUNTER_RESET_DELAY_SECONDS cfg) <? d)) ;;
  when idle (set_vibrationCounter 0).

(** Lines 159-170. *)
Definition checkForVibrationStop : M unit :=
  d <- ABS to_u32 since_last_change ;;
  when (milliseconds (VIBRATION_STOPPED_TIME_DELAY_SECONDS cfg) <? d)
    (washerDryerNotification ;;
     set_vibrationState 1 ;;
     set_vibrationCounter 0 ;;
     emit (SerialPrintln "WAITING FOR THRESHOLD") ;;
     delay (60 * 1000)).

(** Lines 172-183. *)
Definition checkVibrationCounter : M unit :=
  c <- get vibrationCounter ;;
  when (VIBRATION_MONITORING_THRESHOLD cfg <? c)
    (set_vibrationCounter 0 ;;
     set_vibrationState 0 ;;
     (t <- millis ;; set_startedTime (to_s32 t)) ;;
     washerDryerStarted ;;
     emit (SerialPrintln "MONITORING STOP") ;;
     delay (60 * 1000)).

(** Lines 185-193. *)
Definition loop : M unit :=
  checkForVibration ;;
  s <- get vibrationState ;;
  if s =? 0 then checkForVibrationStop
  else
    s' <- get vibrationState ;;
    if s' =? 1 then checkVibrationCounter else ret tt.

(** ** Executions *)

(** What the hardware presents during one pass of [loop]: the pin level,
    the uptime in milliseconds, and the answers the network polls of that
    pass will get. *)
Record Input : Type := { rd : bool; at_ms : Z; net : list bool }.

Definition feed (i : Input) (w : World) : World :=
  {| mem := mem w; pin := rd i; clock := at_ms i; link := net i; out := out w |}.

(** Static storage is zero-initialised. *)
Definition power_on (i : Input) : World :=
  {| mem := {| vibrationState := 0; lastVibrationStateChange := 0;
               previousVibrationValue := 0; startedTime := 0;
               vibrationCounter := 0 |};
     pin := rd i; clock := at_ms i; link := net i; out := [] |}.

(** [loop] called once per input, stopping where a pass blocks. *)
Fixpoint passes (ins : list Input) (w : World) : Result unit :=
  match ins with
  | [] => Done tt w
  | i :: rest =>
      match loop (feed i w) with
      | Done _ w' => passes rest w'
      | Blocked w' => Blocked w'
      end
  end.

(** The Arduino runtime: [setup()] once, then [loop()] again and again. *)
Definition sketch (boot : Input) (ins : list Input) : Result unit :=
  match setup (power_on boot) with
  | Done _ w => passes ins w
  | Blocked w => Blocked w
  end.

(** Worlds at the boundary between two passes. *)
Inductive reachable : World -> Prop :=
| reach_setup boot w :
    setup (power_on boot) = Done tt w -> reachable w
| reach_loop i w w' :
    reachable w -> loop (feed i w) = Done tt w' -> reachable w'.

End Sketch.

(** ** Observations *)

(** The detector states of the specification, read off [vibrationState]
    (comment at lines 55-58). *)
Inductive DetectorState : Type := Accumulating | MonitoringForStop.

Definition detector (w : World) : option DetectorState :=
  if vibrationState (mem w) =? 1 then Some Accumulating
  else if vibrationState (mem w) =? 0 then Some MonitoringForStop
  else None.

Inductive Lifecycle : Type := CycleStarted | CycleStopped.

Definition message_of (e : Lifecycle) : string :=
  match e with
  | CycleStarted => STARTED_MESSAGE
  | CycleStopped => STOPPED_MESSAGE
  end.

Definition lifecycle_of (msg : string) : option Lifecycle :=
  if String.eqb msg STARTED_MESSAGE then Some CycleStarted
  else if String.eqb msg STOPPED_MESSAGE then Some CycleStopped
  else None.

(** The lifecycle events a trace hands to channel [c]: the payloads set on
    its slot 1. *)
Fixpoint events (c : Channel) (tr : list IO) : list Lifecycle :=
  match tr with
  | [] => []
  | SetValue c' 1 msg :: rest =>
      if Channel_eqb c c' then
        match lifecycle_of msg with
        | Some e => e :: events c rest
        | None => events c rest
        end
      else events c rest
  | _ :: rest => events c rest
  end.

(** The calls of [n] failed rounds of a retry loop. *)
Definition retries (failed : IO) (body : list IO) (n : nat) : list IO :=
  List.concat (repeat (failed :: body) n).

(** The calls a notification of [e] makes on channel [c] when the first
    [n] connection attempts fail. *)
Definition delivery (c : Channel) (n : nat) (e : Lifecycle) : list IO :=
  retries (Connect c false) [SerialPrint "."] n
  ++ [Connect c true; SetValue c 1 (message_of e); Delay 100; Post c].

(** The notification procedure of a lifecycle event. *)
Definition notification (e : Lifecycle) : M unit :=
  match e with
  | CycleStarted => washerDryerStarted
  | CycleStopped => washerDryerNotification
  end.

(** The world after the calls [tr] have been made and the answers down to
    [rest] used. *)
Definition said (tr : list IO) (rest : list bool) (w : World) : World :=
  {| mem := mem w; pin := pin w; clock := clock w; link := rest;
     out := out w ++ tr |}.

(** Milliseconds between the stored timestamp and the uptime [now], as the
    comparisons at lines 154 and 162 compute it. *)
Definition elapsed (now : Z) (w : World) : Z :=
  to_u32 (to_u32 now - to_u32 (lastVibrationStateChange (mem w))).


(** * Vocabulary of the proofs *)

(** The pin level differs from the stored one. *)
Definition edge (w : World) : bool :=
  negb (level (pin w) =? previousVibrationValue (mem w)).

Definition other (e : Lifecycle) : Lifecycle :=
  match e with
  | CycleStarted => CycleStopped
  | CycleStopped => CycleStarted
  end.

(** The first [n] events of a history that begins with [e]. *)
Fixpoint alternation (n : nat) (e : Lifecycle) : list Lifecycle :=
  match n with
  | O => []
  | S k => e :: alternation k (other e)
  end.

(** A notification of [e] that has not returned: the calls made so far. *)
Definition waiting (e : Lifecycle) (l : list bool) (tr : list IO) : Prop :=
  (exists n,
     l = repeat false n
     /\ tr = retries (Connect event false) [SerialPrint "."] n)
  \/ (exists n1 n2,
        l = repeat false n1 ++ true :: repeat false n2
        /\ tr = delivery event n1 e
                ++ retries (Connect event2 false) [SerialPrint "."] n2).

(** A notification of [e] that has returned. *)
Definition delivered (e : Lifecycle) (l rest : list bool) (tr : list IO)
  : Prop :=
  exists n1 n2,
    l = repeat false n1 ++ true :: repeat false n2 ++ true :: rest
    /\ tr = delivery event n1 e ++ delivery event2 n2 e.

Section PassCases.

Variable cfg : Config.

Notation "'THRESHOLD'" := (VIBRATION_MONITORING_THRESHOLD cfg).
Notation "'STOPPED_MS'" :=
  (milliseconds (VIBRATION_STOPPED_TIME_DELAY_SECONDS cfg)).
Notation "'RESET_MS'" :=
  (milliseconds (VIBRATION_COUNTER_RESET_DELAY_SECONDS cfg)).

(** The world [checkForVibration] leaves (lemma [checkForVibration_tracked]
    below proves that it does): on an edge the level is flipped, the counter
    incremented in state 1 and the stamp renewed, and nothing has elapsed
    for the inactivity check; without an edge only that check can act. *)
Definition tracked (w : World) : World :=
  let g := mem w in
  if edge w then
    with_mem
      {| vibrationState := vibrationState g;
         lastVibrationStateChange := to_s32 (to_u32 (clock w));
         previousVibrationValue :=
           (let x := to_s32 (previousVibrationValue g - 1) in
            if 0 <? x then x else to_s32 (- x));
         startedTime := startedTime g;
         vibrationCounter :=
           (if vibrationState g =? 1 then to_s32 (vibrationCounter g + 1)
            else vibrationCounter g) |} w
  else
    with_mem
      {| vibrationState := vibrationState g;
         lastVibrationStateChange := lastVibrationStateChange g;
         previousVibrationValue := previousVibrationValue g;
         startedTime := startedTime g;
         vibrationCounter :=
           (if (vibrationState g =? 1) && (RESET_MS <? elapsed (clock w) w)
            then 0 else vibrationCounter g) |} w.

(** The globals as [checkVibrationCounter] sets them on a start. *)
Definition monitoring (w : World) : World :=
  with_mem
    {| vibrationState := 0;
       lastVibrationStateChange := lastVibrationStateChange (mem w);
       previousVibrationValue := previousVibrationValue (mem w);
       startedTime := to_s32 (to_u32 (clock w));
       vibrationCounter := 0 |} w.

(** The globals as [checkForVibrationStop] sets them on a stop. *)
Definition counting (w : World) : World :=
  with_mem
    {| vibrationState := 1;
       lastVibrationStateChange := lastVibrationStateChange (mem w);
       previousVibrationValue := previousVibrationValue (mem w);
       startedTime := startedTime (mem w);
       vibrationCounter := 0 |} w.

Definition started_tail : list IO :=
  [SerialPrintln "MONITORING STOP"; Delay (60 * 1000)].
Definition stopped_tail : list IO :=
  [SerialPrintln "WAITING FOR THRESHOLD"; Delay (60 * 1000)].

(** The five ways a pass can go. *)
Inductive pass_case (w : World) : Result unit -> Prop :=
| pass_stay :
    vibrationState (mem w) = 0
      /\ elapsed (clock w) (tracked w) <= STOPPED_MS
    \/ vibrationState (mem w) = 1
       /\ vibrationCounter (mem (tracked w)) <= THRESHOLD
    \/ vibrationState (mem w) <> 0 /\ vibrationState (mem w) <> 1 ->
    pass_case w (Done tt (tracked w))
| pass_start rest tr :
    vibrationState (mem w) = 1 ->
    THRESHOLD < vibrationCounter (mem (tracked w)) ->
    delivered CycleStarted (link w) rest tr ->
    pass_case w
      (Done tt (said (tr ++ started_tail) rest (monitoring (tracked w))))
| pass_start_waiting tr :
    vibrationState (mem w) = 1 ->
    THRESHOLD < vibrationCounter (mem (tracked w)) ->
    waiting CycleStarted (link w) tr ->
    pass_case w (Blocked (said tr [] (monitoring (tracked w))))
| pass_stop rest tr :
    vibrationState (mem w) = 0 ->
    STOPPED_MS < elapsed (clock w) (tracked w) ->
    delivered CycleStopped (link w) rest tr ->
    pass_case w
      (Done tt (said (tr ++ stopped_tail) rest (counting (tracked w))))
| pass_stop_waiting tr :
    vibrationState (mem w) = 0 ->
    STOPPED_MS < elapsed (clock w) (tracked w) ->
    waiting CycleStopped (link w) tr ->
    pass_case w (Blocked (said tr [] (tracked w))).

(** The counter never passes the threshold at a pass boundary. *)
Definition bounded (w : World) : Prop :=
  0 <= vibrationCounter (mem w) <= THRESHOLD.

End PassCases.

(** The stored level is 0 or 1, the state is 0 or 1, and the counter is 0
    while the state is 0. *)
Definition well_formed (w : World) : Prop :=
  (vibrationState (mem w) = 1
   \/ vibrationState (mem w) = 0 /\ vibrationCounter (mem w) = 0)
  /\ (previousVibrationValue (mem w) = 0 \/ previousVibrationValue (mem w) = 1).

(** The calls of [setup] when the first [n] polls of the WiFi status
    fail. *)
Definition setup_calls (n : nat) : list IO :=
  [SerialBegin SERIAL_BAUDRATE; WifiMode;
   SerialPrintf "[WIFI] Connecting to %s "; WifiBegin WIFI_SSID WIFI_PASS]
  ++ retries (WifiStatus false) [SerialPrint "."; Delay 100] n
  ++ [WifiStatus true; SerialPrintln EmptyString;
      SerialPrintf "[WIFI] STATION Mode, SSID: %s, IP address: %s\n"; PinMode].

(** The world [setup] leaves. *)
Definition booted (boot : Input) (n : nat) (rest : list bool) : World :=
  {| mem := {| vibrationState := 1;
               lastVibrationStateChange := to_s32 (to_u32 (at_ms boot));
               previousVibrationValue := 0;
               startedTime := 0;
               vibrationCounter := 0 |};
     pin := rd boot; clock := at_ms boot; link := rest;
     out := setup_calls n |}.

(** On every channel the events so far alternate from [CycleStarted], and
    their parity tells the state. *)
Definition in_step (w : World) : Prop :=
  forall c, exists n,
    events c (out w) = alternation n CycleStarted
    /\ Nat.even n = (vibrationState (mem w) =? 1).

Definition alternating_history (w : World) : Prop :=
  forall c, exists n, events c (out w) = alternation n CycleStarted.


(** ** Concrete executions *)

(** The configuration of the scenarios: threshold 5, the delays of the
    sketch. *)
Definition scenario : Config := {|
  VIBRATION_MONITORING_THRESHOLD := 5;
  VIBRATION_STOPPED_TIME_DELAY_SECONDS := 150;
  VIBRATION_COUNTER_RESET_DELAY_SECONDS := 180
|}.

Definition boot_at_1s : Input :=
  {| rd := false; at_ms := 1000; net := [false; true] |}.

Definition reading (r : bool) (t : Z) : Input :=
  {| rd := r; at_ms := t; net := [false; true; true] |}.


Definition five_edges : list Input :=
  [reading true 2000; reading false 2001; reading true 2002;
   reading false 2003; reading true 2004].

Definition six_edges : list Input := five_edges ++ [reading false 2005].

Definition full_cycle : list Input := six_edges ++ [reading false 152006].

(** A world stamped 1000 ms before the counter wraps, met 151000 ms
    later. *)
Definition across_the_wrap : World :=
  {| mem := {| vibrationState := 0;
               lastVibrationStateChange := to_s32 (to_u32 (2 ^ 32 - 1000));
               previousVibrationValue := 0;
               startedTime := 0;
               vibrationCounter := 0 |};
     pin := false; clock := 2 ^ 32 - 1000 + 151000;
     link := [true; true]; out := [] |}.

(** ** Further vocabulary *)



(** The milliseconds a trace spends in [delay()]. *)
Fixpoint delayed (tr : list IO) : Z :=
  match tr with
  | [] => 0
  | Delay ms :: rest => ms + delayed rest
  | _ :: rest => delayed rest
  end.


(** The lifecycle event a change of state away from [s] announces. *)
Definition announced (s : Z) : Lifecycle :=
  if s =? 1 then CycleStarted else CycleStopped.

Definition tail_of (e : Lifecycle) : list IO :=
  match e with
  | CycleStarted => started_tail
  | CycleStopped => stopped_tail
  end.


(** An edge whose pass gets a single successful [connect()]. *)
Definition starved_edge : Input :=
  {| rd := false; at_ms := 2005; net := [false; true] |}.



(** * Verification *)

(** ** Machine integers *)

Arguments to_u32 : simpl never.
Arguments to_s32 : simpl never.

Lemma to_u32_range z : 0 <= to_u32 z < 2 ^ 32.
Proof. unfold to_u32. apply Z.mod_pos_bound. lia. Qed.

Lemma to_s32_range z : - 2 ^ 31 <= to_s32 z < 2 ^ 31.
Proof.
  unfold to_s32. pose proof (Z.mod_pos_bound (z + 2 ^ 31) (2 ^ 32)). lia.
Qed.

Lemma to_u32_small z : 0 <= z < 2 ^ 32 -> to_u32 z = z.
Proof. intros H. unfold to_u32. apply Z.mod_small. exact H. Qed.

Lemma to_s32_small z : - 2 ^ 31 <= z < 2 ^ 31 -> to_s32 z = z.
Proof. intros H. unfold to_s32. rewrite Z.mod_small; lia. Qed.

Lemma to_u32_to_s32 z : to_u32 (to_s32 z) = to_u32 z.
Proof.
  unfold to_u32, to_s32.
  pose proof (Z.div_mod (z + 2 ^ 31) (2 ^ 32)) as H.
  set (k := (z + 2 ^ 31) / 2 ^ 32) in *.
  replace ((z + 2 ^ 31) mod 2 ^ 32 - 2 ^ 31) with (z + (- k) * 2 ^ 32) by lia.
  apply Z.mod_add. lia.
Qed.

Lemma to_u32_idem z : to_u32 (to_u32 z) = to_u32 z.
Proof. apply to_u32_small, to_u32_range. Qed.


(** On an [unsigned long] the macro [abs] is the identity. *)
Lemma abs_unsigned x :
  0 <= x -> (if 0 <? x then x else to_u32 (- x)) = x.
Proof.
  intros H. destruct (Z.ltb_spec 0 x) as [|Hle]; [reflexivity|].
  assert (x = 0) as -> by lia. reflexivity.
Qed.

(** On 0 and 1 the expression [abs(previousVibrationValue - 1)] flips. *)
Lemma abs_flip p :
  p = 0 \/ p = 1 ->
  (if 0 <? to_s32 (p - 1) then to_s32 (p - 1) else to_s32 (- to_s32 (p - 1)))
  = 1 - p.
Proof. intros [-> | ->]; reflexivity. Qed.


(** ** Retry loops *)

Arguments While_not : simpl never.
Arguments retries : simpl never.

Lemma said_said tr rest tr' rest' w :
  said tr rest (said tr' rest' w) = said (tr' ++ tr) rest w.
Proof. unfold said; cbn. now rewrite app_assoc. Qed.

Lemma said_nothing w : said [] (link w) w = w.
Proof. destruct w; unfold said; cbn. now rewrite app_nil_r. Qed.

Lemma emit_said e w : emit e w = Done tt (said [e] (link w) w).
Proof. reflexivity. Qed.

Lemma retries_S failed body n :
  retries failed body (S n) = failed :: body ++ retries failed body n.
Proof. reflexivity. Qed.

Ltac list_norm :=
  repeat (rewrite <- app_assoc || rewrite <- app_comm_cons); cbn [app].

Section RetryLoop.

Variable log : bool -> IO.
Variable body : M unit.
Variable calls : list IO.
Hypothesis body_calls : forall w, body w = Done tt (said calls (link w) w).

Lemma while_not_connected n : forall fuel rest w,
  link w = repeat false n ++ true :: rest ->
  (n < fuel)%nat ->
  while_not fuel (poll log) body w
  = Done tt (said (retries (log false) calls n ++ [log true]) rest w).
Proof.
  induction n as [|n IH]; intros fuel rest w Hl Hf;
    (destruct fuel as [|fuel]; [lia|]); cbn [while_not]; unfold bind, poll;
    rewrite Hl; cbn.
  - reflexivity.
  - rewrite body_calls.
    rewrite (IH fuel rest) by first [reflexivity | lia].
    unfold said; cbn. rewrite retries_S. now list_norm.
Qed.

Lemma while_not_waiting n : forall fuel w,
  link w = repeat false n ->
  (n < fuel)%nat ->
  while_not fuel (poll log) body w
  = Blocked (said (retries (log false) calls n) [] w).
Proof.
  induction n as [|n IH]; intros fuel w Hl Hf;
    (destruct fuel as [|fuel]; [lia|]); cbn [while_not]; unfold bind, poll;
    rewrite Hl; cbn.
  - destruct w; unfold said; cbn in *. subst. now rewrite app_nil_r.
  - rewrite body_calls.
    rewrite (IH fuel) by first [reflexivity | lia].
    unfold said; cbn. rewrite retries_S. now list_norm.
Qed.

Lemma While_not_connected n rest w :
  link w = repeat false n ++ true :: rest ->
  While_not (poll log) body w
  = Done tt (said (retries (log false) calls n ++ [log true]) rest w).
Proof.
  intros Hl. unfold While_not. apply while_not_connected; [exact Hl|].
  rewrite Hl, length_app, repeat_length. lia.
Qed.

Lemma While_not_waiting n w :
  link w = repeat false n ->
  While_not (poll log) body w
  = Blocked (said (retries (log false) calls n) [] w).
Proof.
  intros Hl. unfold While_not. apply while_not_waiting; [exact Hl|].
  rewrite Hl, repeat_length. lia.
Qed.

End RetryLoop.

(** A script of answers either contains a success or is all failures. *)
Lemma answers_split (l : list bool) :
  (exists n rest, l = repeat false n ++ true :: rest)
  \/ (exists n, l = repeat false n).
Proof.
  induction l as [|b l [(n & rest & ->) | (n & ->)]].
  - right. now exists 0%nat.
  - left. destruct b; [now exists 0%nat, (repeat false n ++ true :: rest)|].
    now exists (S n), rest.
  - destruct b; [left; now exists 0%nat, (repeat false n)|].
    right. now exists (S n).
Qed.

(** ** The notification procedures *)

Lemma notification_delivered e n1 n2 rest w :
  link w = repeat false n1 ++ true :: repeat false n2 ++ true :: rest ->
  notification e w
  = Done tt (said (delivery event n1 e ++ delivery event2 n2 e) rest w).
Proof.
  intros Hl.
  destruct e; unfold notification, washerDryerStarted, washerDryerNotification,
    connect, bind;
    rewrite (While_not_connected _ _ _ (emit_said _) n1 _ _ Hl); cbn;
    erewrite (While_not_connected _ _ _ (emit_said _) n2 rest) by reflexivity;
    cbn; unfold post, emit, said, delivery; cbn; now list_norm.
Qed.

Lemma notification_waiting_first e n w :
  link w = repeat false n ->
  notification e w
  = Blocked (said (retries (Connect event false) [SerialPrint "."] n) [] w).
Proof.
  intros Hl.
  destruct e; unfold notification, washerDryerStarted, washerDryerNotification,
    connect, bind;
    rewrite (While_not_waiting _ _ _ (emit_said _) n _ Hl); reflexivity.
Qed.

Lemma notification_waiting_second e n1 n2 w :
  link w = repeat false n1 ++ true :: repeat false n2 ->
  notification e w
  = Blocked (said (delivery event n1 e
                   ++ retries (Connect event2 false) [SerialPrint "."] n2)
               [] w).
Proof.
  intros Hl.
  destruct e; unfold notification, washerDryerStarted, washerDryerNotification,
    connect, bind;
    rewrite (While_not_connected _ _ _ (emit_said _) n1 _ _ Hl); cbn;
    erewrite (While_not_waiting _ _ _ (emit_said _) n2) by reflexivity;
    cbn; unfold post, emit, said, delivery; cbn; now list_norm.
Qed.

(** ** The functions of the sketch, one by one *)

Ltac sketch_unfold :=
  unfold checkForVibration, checkForVibrationStop, checkVibrationCounter,
    and_then, ABS, since_last_change, when, bind, ret, get, millis,
    digitalRead, set_vibrationState, set_vibrationCounter,
    set_previousVibrationValue, set_lastVibrationStateChange,
    set_startedTime, with_mem, delay, emit.


Lemma milliseconds_nonneg s : 0 <= milliseconds s.
Proof. unfold milliseconds. apply to_u32_range. Qed.


Lemma elapsed_nonneg now w : 0 <= elapsed now w.
Proof. unfold elapsed. apply to_u32_range. Qed.

(** Both comparisons read [elapsed]: the macro [abs] changes nothing. *)
Lemma ABS_since_last_change w :
  ABS to_u32 since_last_change w = Done (elapsed (clock w) w) w.
Proof.
  unfold ABS, since_last_change, bind, ret, millis, get; cbn.
  fold (elapsed (clock w) w).
  now rewrite abs_unsigned by apply elapsed_nonneg.
Qed.

Section Functions.

Variable cfg : Config.

Lemma checkForVibration_edge w :
  edge w = true ->
  checkForVibration cfg w
  = Done tt
      (with_mem
         {| vibrationState := vibrationState (mem w);
            lastVibrationStateChange := to_s32 (to_u32 (clock w));
            previousVibrationValue :=
              (let x := to_s32 (previousVibrationValue (mem w) - 1) in
               if 0 <? x then x else to_s32 (- x));
            startedTime := startedTime (mem w);
            vibrationCounter :=
              (if vibrationState (mem w) =? 1
               then to_s32 (vibrationCounter (mem w) + 1)
               else vibrationCounter (mem w)) |} w).
Proof.
  unfold edge. intros He.
  destruct w as [[s l p st c] pn ck lk o]; cbn in *.
  sketch_unfold; cbn. rewrite He; cbn.
  destruct (s =? 1) eqn:Hs; cbn; rewrite Hs; cbn; [|reflexivity].
  rewrite to_u32_to_s32, !to_u32_idem, Z.sub_diag.
  change (to_u32 0) with 0; cbn; change (to_u32 0) with 0.
  destruct (Z.ltb_spec (milliseconds (VIBRATION_COUNTER_RESET_DELAY_SECONDS cfg)) 0)
    as [Hneg|_]; [|reflexivity].
  pose proof (milliseconds_nonneg (VIBRATION_COUNTER_RESET_DELAY_SECONDS cfg)).
  lia.
Qed.

Lemma checkForVibration_quiet w :
  edge w = false ->
  checkForVibration cfg w
  = Done tt
      (with_mem
         {| vibrationState := vibrationState (mem w);
            lastVibrationStateChange := lastVibrationStateChange (mem w);
            previousVibrationValue := previousVibrationValue (mem w);
            startedTime := startedTime (mem w);
            vibrationCounter :=
              (if (vibrationState (mem w) =? 1)
                  && (milliseconds (VIBRATION_COUNTER_RESET_DELAY_SECONDS cfg)
                      <? elapsed (clock w) w)
               then 0 else vibrationCounter (mem w)) |} w).
Proof.
  unfold edge. intros He.
  destruct w as [[s l p st c] pn ck lk o]; cbn in *.
  sketch_unfold; unfold elapsed; cbn. rewrite He; cbn.
  destruct (s =? 1) eqn:Hs; cbn; [|reflexivity].
  rewrite abs_unsigned by apply to_u32_range.
  destruct (_ <? _); reflexivity.
Qed.

Lemma checkVibrationCounter_below w :
  vibrationCounter (mem w) <= VIBRATION_MONITORING_THRESHOLD cfg ->
  checkVibrationCounter cfg w = Done tt w.
Proof.
  intros H. sketch_unfold; cbn.
  destruct (Z.ltb_spec (VIBRATION_MONITORING_THRESHOLD cfg)
              (vibrationCounter (mem w))); [lia|reflexivity].
Qed.

Lemma checkVibrationCounter_above w :
  VIBRATION_MONITORING_THRESHOLD cfg < vibrationCounter (mem w) ->
  checkVibrationCounter cfg w
  = match
      notification CycleStarted
        (with_mem
           {| vibrationState := 0;
              lastVibrationStateChange := lastVibrationStateChange (mem w);
              previousVibrationValue := previousVibrationValue (mem w);
              startedTime := to_s32 (to_u32 (clock w));
              vibrationCounter := 0 |} w)
    with
    | Done _ w' =>
        Done tt (said [SerialPrintln "MONITORING STOP"; Delay (60 * 1000)]
                   (link w') w')
    | Blocked w' => Blocked w'
    end.
Proof.
  intros H. sketch_unfold; cbn.
  destruct (Z.ltb_spec (VIBRATION_MONITORING_THRESHOLD cfg)
              (vibrationCounter (mem w))); [|lia].
  cbn. destruct (washerDryerStarted _) as [[] w'|w']; [|reflexivity].
  unfold said; cbn. now list_norm.
Qed.

Lemma checkForVibrationStop_early w :
  elapsed (clock w) w
  <= milliseconds (VIBRATION_STOPPED_TIME_DELAY_SECONDS cfg) ->
  checkForVibrationStop cfg w = Done tt w.
Proof.
  intros H. unfold checkForVibrationStop, bind.
  rewrite ABS_since_last_change.
  destruct (Z.ltb_spec (milliseconds (VIBRATION_STOPPED_TIME_DELAY_SECONDS cfg))
              (elapsed (clock w) w)); [lia|reflexivity].
Qed.

Lemma checkForVibrationStop_due w :
  milliseconds (VIBRATION_STOPPED_TIME_DELAY_SECONDS cfg)
  < elapsed (clock w) w ->
  checkForVibrationStop cfg w
  = match notification CycleStopped w with
    | Done _ w' =>
        Done tt
          (said [SerialPrintln "WAITING FOR THRESHOLD"; Delay (60 * 1000)]
             (link w')
             (with_mem
                {| vibrationState := 1;
                   lastVibrationStateChange := lastVibrationStateChange (mem w');
                   previousVibrationValue := previousVibrationValue (mem w');
                   startedTime := startedTime (mem w');
                   vibrationCounter := 0 |} w'))
    | Blocked w' => Blocked w'
    end.
Proof.
  intros H. unfold checkForVibrationStop. unfold bind at 1.
  rewrite ABS_since_last_change.
  destruct (Z.ltb_spec (milliseconds (VIBRATION_STOPPED_TIME_DELAY_SECONDS cfg))
              (elapsed (clock w) w)); [|lia].
  unfold when, bind at 1. cbn.
  destruct (washerDryerNotification w) as [[] w'|w']; [|reflexivity].
  sketch_unfold; unfold said; cbn. now list_norm.
Qed.

Lemma loop_unfold w :
  loop cfg w
  = match checkForVibration cfg w with
    | Done _ w1 =>
        if vibrationState (mem w1) =? 0 then checkForVibrationStop cfg w1
        else if vibrationState (mem w1) =? 1 then checkVibrationCounter cfg w1
        else Done tt w1
    | Blocked w1 => Blocked w1
    end.
Proof.
  unfold loop, bind, get, ret.
  destruct (checkForVibration cfg w) as [[] w1|w1]; [|reflexivity].
  destruct (_ =? 0); [reflexivity|]. now destruct (_ =? 1).
Qed.

End Functions.

(** ** Lifecycle events of a trace *)

Lemma events_app c tr tr' : events c (tr ++ tr') = events c tr ++ events c tr'.
Proof.
  induction tr as [|x tr IH]; [reflexivity|].
  destruct x; cbn [app events]; try exact IH.
  destruct slot as [|[| |]|]; try exact IH.
  destruct (Channel_eqb c c0); [|exact IH].
  destruct (lifecycle_of msg); [|exact IH].
  cbn [app]. now rewrite IH.
Qed.

Lemma events_retries c failed body n :
  events c [failed] = [] -> events c body = [] ->
  events c (retries failed body n) = [].
Proof.
  intros Hf Hb. unfold retries.
  induction n as [|n IH]; [reflexivity|].
  cbn [repeat List.concat].
  rewrite events_app, IH, app_nil_r.
  change (failed :: body) with ([failed] ++ body).
  now rewrite events_app, Hf, Hb.
Qed.

Lemma events_delivery c c' n e :
  events c (delivery c' n e) = if Channel_eqb c c' then [e] else [].
Proof.
  unfold delivery. rewrite events_app, events_retries by reflexivity.
  destruct c, c', e; reflexivity.
Qed.



Lemma other_other e : other (other e) = e.
Proof. now destruct e. Qed.

Lemma alternation_snoc n : forall e,
  alternation n e ++ [if Nat.even n then e else other e] = alternation (S n) e.
Proof.
  induction n as [|n IH]; intros e; [reflexivity|].
  change (alternation (S (S n)) e) with (e :: alternation (S n) (other e)).
  rewrite <- (IH (other e)). cbn [alternation app]. do 3 f_equal.
  rewrite Nat.even_succ, <- Nat.negb_even.
  destruct (Nat.even n); cbn; now rewrite ?other_other.
Qed.

Lemma length_alternation n : forall e, List.length (alternation n e) = n.
Proof.
  induction n as [|n IH]; intros e; cbn; [reflexivity|now rewrite IH].
Qed.

Lemma nth_alternation n : forall e k,
  nth_error (alternation n e) k
  = if (k <? n)%nat then Some (if Nat.even k then e else other e) else None.
Proof.
  induction n as [|n IH]; intros e k.
  - now destruct k.
  - destruct k as [|k]; [reflexivity|].
    cbn [alternation nth_error]. rewrite IH.
    change (S k <? S n)%nat with (k <? n)%nat.
    destruct (k <? n)%nat; [|reflexivity].
    rewrite Nat.even_succ, <- Nat.negb_even.
    destruct (Nat.even k); cbn; now rewrite ?other_other.
Qed.

(** Every way a notification can go: both channels served, or still
    waiting for the first or for the second. *)
Lemma notification_outcome e w :
  (exists n1 n2 rest,
     link w = repeat false n1 ++ true :: repeat false n2 ++ true :: rest
     /\ notification e w
        = Done tt (said (delivery event n1 e ++ delivery event2 n2 e) rest w))
  \/ (exists n,
        link w = repeat false n
        /\ notification e w
           = Blocked (said (retries (Connect event false) [SerialPrint "."] n)
                        [] w))
  \/ (exists n1 n2,
        link w = repeat false n1 ++ true :: repeat false n2
        /\ notification e w
           = Blocked (said (delivery event n1 e
                            ++ retries (Connect event2 false)
                                 [SerialPrint "."] n2) [] w)).
Proof.
  destruct (answers_split (link w)) as [(n1 & l & Hl) | (n & Hl)].
  - destruct (answers_split l) as [(n2 & rest & ->) | (n2 & ->)].
    + left. exists n1, n2, rest. split; [exact Hl|].
      now apply notification_delivered.
    + right; right. exists n1, n2. split; [exact Hl|].
      now apply notification_waiting_second.
  - right; left. exists n. split; [exact Hl|].
    now apply notification_waiting_first.
Qed.

(** ** One pass of [loop], case by case *)



Lemma notification_cases e w :
  (exists rest tr, delivered e (link w) rest tr
                   /\ notification e w = Done tt (said tr rest w))
  \/ (exists tr, waiting e (link w) tr
                 /\ notification e w = Blocked (said tr [] w)).
Proof.
  destruct (notification_outcome e w)
    as [(n1 & n2 & rest & Hl & H) | [(n & Hl & H) | (n1 & n2 & Hl & H)]].
  - left. exists rest, (delivery event n1 e ++ delivery event2 n2 e).
    split; [now exists n1, n2 | exact H].
  - right. eexists. split; [left; exists n; split; [exact Hl|reflexivity]|].
    exact H.
  - right. eexists.
    split; [right; exists n1, n2; split; [exact Hl|reflexivity]|]. exact H.
Qed.

Lemma events_delivered e l rest tr c :
  delivered e l rest tr -> events c tr = [e].
Proof.
  intros (n1 & n2 & _ & ->). rewrite events_app, !events_delivery.
  now destruct c.
Qed.

Lemma events_waiting e l tr c :
  waiting e l tr -> events c tr = [] \/ events c tr = [e].
Proof.
  intros [(n & _ & ->) | (n1 & n2 & _ & ->)].
  - left. now apply events_retries.
  - rewrite events_app, events_delivery, events_retries by reflexivity.
    destruct c; cbn; auto.
Qed.

Section Pass.

Variable cfg : Config.

Notation "'THRESHOLD'" := (VIBRATION_MONITORING_THRESHOLD cfg).
Notation "'STOPPED_MS'" :=
  (milliseconds (VIBRATION_STOPPED_TIME_DELAY_SECONDS cfg)).
Notation "'RESET_MS'" :=
  (milliseconds (VIBRATION_COUNTER_RESET_DELAY_SECONDS cfg)).


Lemma checkForVibration_tracked w :
  checkForVibration cfg w = Done tt (tracked cfg w).
Proof.
  unfold tracked. destruct (edge w) eqn:He.
  - now apply checkForVibration_edge.
  - now apply checkForVibration_quiet.
Qed.





Lemma tracked_state w :
  vibrationState (mem (tracked cfg w)) = vibrationState (mem w).
Proof. unfold tracked. now destruct (edge w). Qed.

Lemma tracked_io w :
  pin (tracked cfg w) = pin w /\ clock (tracked cfg w) = clock w
  /\ link (tracked cfg w) = link w /\ out (tracked cfg w) = out w.
Proof. unfold tracked. now destruct (edge w). Qed.

Lemma loop_cases w : pass_case cfg w (loop cfg w).
Proof.
  rewrite loop_unfold, checkForVibration_tracked.
  pose proof (tracked_state w) as Hs.
  pose proof (tracked_io w) as (Hp & Hc & Hl & Ho).
  destruct (Z.eqb_spec (vibrationState (mem (tracked cfg w))) 0) as [H0|H0].
  - destruct (Z.le_gt_cases (elapsed (clock w) (tracked cfg w)) STOPPED_MS)
      as [Hd|Hd].
    + rewrite checkForVibrationStop_early by now rewrite Hc.
      apply pass_stay. left. split; [congruence|exact Hd].
    + rewrite checkForVibrationStop_due by now rewrite Hc.
      destruct (notification_cases CycleStopped (tracked cfg w))
        as [(rest & tr & Hd' & ->) | (tr & Hw & ->)]; rewrite Hl in *.
      * replace (said stopped_tail _ _)
          with (said (tr ++ stopped_tail) rest (counting (tracked cfg w))).
        -- apply pass_stop; [congruence|exact Hd|exact Hd'].
        -- unfold said, counting, with_mem; cbn. now list_norm.
      * apply pass_stop_waiting; [congruence|exact Hd|exact Hw].
  - destruct (Z.eqb_spec (vibrationState (mem (tracked cfg w))) 1) as [H1|H1].
    + destruct (Z.le_gt_cases (vibrationCounter (mem (tracked cfg w))) THRESHOLD)
        as [Hd|Hd].
      * rewrite checkVibrationCounter_below by exact Hd.
        apply pass_stay. right; left. split; [congruence|exact Hd].
      * rewrite checkVibrationCounter_above by exact Hd.
        fold (monitoring (tracked cfg w)).
        destruct (notification_cases CycleStarted (monitoring (tracked cfg w)))
          as [(rest & tr & Hd' & ->) | (tr & Hw & ->)];
          cbn [monitoring with_mem link] in *; rewrite Hl in *.
        -- rewrite said_said.
           apply pass_start; [congruence|exact Hd|exact Hd'].
        -- apply pass_start_waiting; [congruence|exact Hd|exact Hw].
    + apply pass_stay. right; right. split; congruence.
Qed.

End Pass.

(** ** Invariants of the pass boundary *)

Section Invariants.

Variable cfg : Config.

Notation "'THRESHOLD'" := (VIBRATION_MONITORING_THRESHOLD cfg).
Notation "'RESET_MS'" :=
  (milliseconds (VIBRATION_COUNTER_RESET_DELAY_SECONDS cfg)).

Lemma tracked_level w :
  previousVibrationValue (mem (tracked cfg w))
  = if edge w
    then (let x := to_s32 (previousVibrationValue (mem w) - 1) in
          if 0 <? x then x else to_s32 (- x))
    else previousVibrationValue (mem w).
Proof. unfold tracked. now destruct (edge w). Qed.


Lemma tracked_counter w :
  vibrationCounter (mem (tracked cfg w))
  = if edge w
    then (if vibrationState (mem w) =? 1
          then to_s32 (vibrationCounter (mem w) + 1)
          else vibrationCounter (mem w))
    else (if (vibrationState (mem w) =? 1)
             && (RESET_MS <? elapsed (clock w) w)
          then 0 else vibrationCounter (mem w)).
Proof. unfold tracked. now destruct (edge w). Qed.

Lemma tracked_startedTime w :
  startedTime (mem (tracked cfg w)) = startedTime (mem w).
Proof. unfold tracked. now destruct (edge w). Qed.





Lemma tracked_level_ok w :
  previousVibrationValue (mem w) = 0 \/ previousVibrationValue (mem w) = 1 ->
  previousVibrationValue (mem (tracked cfg w)) = 0
  \/ previousVibrationValue (mem (tracked cfg w)) = 1.
Proof.
  intros Hp. rewrite tracked_level. destruct (edge w); [|exact Hp].
  cbv zeta. rewrite abs_flip by exact Hp. lia.
Qed.

Lemma loop_well_formed w w' :
  well_formed w -> loop cfg w = Done tt w' -> well_formed w'.
Proof.
  intros [Hs Hp] H. pose proof (loop_cases cfg w) as Hc. rewrite H in Hc.
  pose proof (tracked_level_ok w Hp) as Hp'.
  pose proof (tracked_state cfg w) as Hst.
  inversion Hc as [Hstay | rest tr H1 Hgt Hd | | rest tr H0 Hgt Hd | ]; subst.
  - split; [|exact Hp'].
    rewrite Hst, tracked_counter.
    destruct Hs as [Hs | [Hs Hz]]; [now left|right].
    rewrite Hs; cbn. split; [reflexivity|]. now destruct (edge w).
  - split; [right; now cbn | exact Hp'].
  - split; [left; now cbn | exact Hp'].
Qed.

Lemma loop_bounded w w' :
  Config_ok cfg -> vibrationState (mem w) = 1 \/ vibrationState (mem w) = 0 ->
  bounded cfg w -> loop cfg w = Done tt w' -> bounded cfg w'.
Proof.
  intros Hok Hs Hb H. pose proof (loop_cases cfg w) as Hc. rewrite H in Hc.
  destruct Hok as [HT _ _]. unfold bounded in *.
  inversion Hc as [Hstay | rest tr H1 Hgt Hd | | rest tr H0 Hgt Hd | ]; subst;
    cbn; try lia.
  rewrite tracked_counter in *.
  destruct Hstay as [[H0 _] | [[H1 Hle] | [H0 H1]]]; [| |lia].
  - rewrite H0; cbn. now destruct (edge w).
  - rewrite H1 in *; cbn in *.
    destruct (edge w).
    + rewrite to_s32_small in *; lia.
    + destruct (_ <? _); lia.
Qed.

End Invariants.

(** ** [setup] *)



Lemma wifi_wait_calls w :
  (emit (SerialPrint ".") ;; delay 100) w
  = Done tt (said [SerialPrint "."; Delay 100] (link w) w).
Proof. unfold bind, delay, emit, said; cbn. now list_norm. Qed.

Lemma bind_done {A B : Type} (m : M A) (k : A -> M B) w a w' :
  m w = Done a w' -> (x <- m ;; k x) w = k a w'.
Proof. intros H. unfold bind. now rewrite H. Qed.

Lemma bind_blocked {A B : Type} (m : M A) (k : A -> M B) w w' :
  m w = Blocked w' -> (x <- m ;; k x) w = Blocked w'.
Proof. intros H. unfold bind. now rewrite H. Qed.

Lemma wifiSetup_connected w n rest :
  link w = repeat false n ++ true :: rest ->
  wifiSetup w
  = Done tt
      (said ([WifiMode; SerialPrintf "[WIFI] Connecting to %s ";
              WifiBegin WIFI_SSID WIFI_PASS]
             ++ retries (WifiStatus false) [SerialPrint "."; Delay 100] n
             ++ [WifiStatus true; SerialPrintln EmptyString;
                 SerialPrintf
                   "[WIFI] STATION Mode, SSID: %s, IP address: %s\n"])
         rest w).
Proof.
  intros Hl. unfold wifiSetup, WiFi_status.
  do 3 (erewrite bind_done by apply emit_said).
  erewrite bind_done
    by (apply (While_not_connected _ _ _ wifi_wait_calls n rest); exact Hl).
  do 1 (erewrite bind_done by apply emit_said).
  rewrite emit_said, !said_said. now list_norm.
Qed.

Lemma wifiSetup_waiting w n :
  link w = repeat false n ->
  wifiSetup w
  = Blocked
      (said ([WifiMode; SerialPrintf "[WIFI] Connecting to %s ";
              WifiBegin WIFI_SSID WIFI_PASS]
             ++ retries (WifiStatus false) [SerialPrint "."; Delay 100] n)
         [] w).
Proof.
  intros Hl. unfold wifiSetup, WiFi_status.
  do 3 (erewrite bind_done by apply emit_said).
  erewrite bind_blocked
    by (apply (While_not_waiting _ _ _ wifi_wait_calls n); exact Hl).
  now rewrite !said_said.
Qed.

Lemma setup_connected boot n rest :
  net boot = repeat false n ++ true :: rest ->
  setup (power_on boot) = Done tt (booted boot n rest).
Proof.
  intros Hl. unfold setup.
  erewrite bind_done by apply emit_said.
  erewrite bind_done by (apply (wifiSetup_connected _ n rest); exact Hl).
  rewrite said_said.
  cbv -[to_u32 to_s32 retries app]. now list_norm.
Qed.

Lemma setup_waiting boot n :
  net boot = repeat false n ->
  exists w, setup (power_on boot) = Blocked w /\ forall c, events c (out w) = [].
Proof.
  intros Hl. unfold setup.
  erewrite bind_done by apply emit_said.
  erewrite bind_blocked by (apply (wifiSetup_waiting _ n); exact Hl).
  eexists. split; [reflexivity|]. intros c. rewrite said_said.
  unfold said; cbn [out power_on].
  rewrite !events_app, events_retries by reflexivity. reflexivity.
Qed.

Lemma events_setup_calls c n : events c (setup_calls n) = [].
Proof.
  unfold setup_calls. now rewrite !events_app, events_retries.
Qed.

Lemma setup_done boot w :
  setup (power_on boot) = Done tt w ->
  exists n rest,
    net boot = repeat false n ++ true :: rest /\ w = booted boot n rest.
Proof.
  intros H.
  destruct (answers_split (net boot)) as [(n & rest & Hl) | (n & Hl)].
  - exists n, rest. split; [exact Hl|].
    rewrite (setup_connected boot n rest Hl) in H. congruence.
  - destruct (setup_waiting boot n Hl) as (w' & Hw & _). congruence.
Qed.

(** ** Reachable worlds *)

Section Reachable.

Variable cfg : Config.

Lemma booted_well_formed boot n rest : well_formed (booted boot n rest).
Proof. split; cbn; auto. Qed.

Lemma reachable_well_formed w : reachable cfg w -> well_formed w.
Proof.
  induction 1 as [boot w H | i w w' _ IH H].
  - destruct (setup_done boot w H) as (n & rest & _ & ->).
    apply booted_well_formed.
  - exact (loop_well_formed cfg (feed i w) w' IH H).
Qed.

Lemma reachable_two_states w :
  reachable cfg w ->
  vibrationState (mem w) = 1 \/ vibrationState (mem w) = 0.
Proof.
  intros H. destruct (reachable_well_formed w H) as [[H1 | [H0 _]] _]; auto.
Qed.

Lemma reachable_bounded w : Config_ok cfg -> reachable cfg w -> bounded cfg w.
Proof.
  intros Hok. induction 1 as [boot w H | i w w' Hr IH H].
  - destruct (setup_done boot w H) as (n & rest & _ & ->).
    destruct Hok as [HT _ _]. unfold bounded; cbn. lia.
  - apply (loop_bounded cfg (feed i w) w' Hok); trivial.
    exact (reachable_two_states w Hr).
Qed.

Lemma passes_reachable ins : forall w w',
  reachable cfg w -> passes cfg ins w = Done tt w' -> reachable cfg w'.
Proof.
  induction ins as [|i ins IH]; intros w w' Hr H; cbn in H.
  - congruence.
  - destruct (loop cfg (feed i w)) as [[] w1|w1] eqn:H1; [|discriminate].
    apply (IH w1); [|exact H]. exact (reach_loop cfg i w w1 Hr H1).
Qed.

Lemma sketch_reachable boot ins w :
  sketch cfg boot ins = Done tt w -> reachable cfg w.
Proof.
  unfold sketch. intros H.
  destruct (setup (power_on boot)) as [[] w0|w0] eqn:H0; [|discriminate].
  apply (passes_reachable ins w0); [|exact H]. exact (reach_setup cfg boot w0 H0).
Qed.

(** *** The history of lifecycle events *)


Lemma in_step_alternating w : in_step w -> alternating_history w.
Proof. intros H c. destruct (H c) as (n & Hn & _). now exists n. Qed.

Lemma loop_in_step w :
  in_step w ->
  match loop cfg w with
  | Done _ w' => in_step w'
  | Blocked w' => alternating_history w'
  end.
Proof.
  intros Hin. pose proof (tracked_io cfg w) as (_ & _ & _ & Ho).
  pose proof (tracked_state cfg w) as Hs.
  destruct (loop_cases cfg w)
    as [_ | rest tr H1 _ Hd | tr H1 _ Hw | rest tr H0 _ Hd | tr H0 _ Hw];
    intros c; destruct (Hin c) as (n & Hn & Hp); cbn [said monitoring counting
      with_mem out mem vibrationState]; rewrite ?Ho, ?events_app, ?Hn.
  - exists n. now rewrite Hs.
  - rewrite H1 in Hp; cbn in Hp.
    rewrite (events_delivered _ _ _ _ c Hd). exists (S n).
    rewrite <- alternation_snoc, Hp.
    split; [reflexivity|]. now rewrite Nat.even_succ, <- Nat.negb_even, Hp.
  - rewrite H1 in Hp; cbn in Hp.
    destruct (events_waiting _ _ _ c Hw) as [-> | ->].
    + exists n. now rewrite app_nil_r.
    + exists (S n). now rewrite <- alternation_snoc, Hp.
  - rewrite H0 in Hp; cbn in Hp.
    rewrite (events_delivered _ _ _ _ c Hd). exists (S n).
    rewrite <- alternation_snoc, Hp.
    split; [reflexivity|]. now rewrite Nat.even_succ, <- Nat.negb_even, Hp.
  - rewrite H0 in Hp; cbn in Hp.
    destruct (events_waiting _ _ _ c Hw) as [-> | ->].
    + exists n. now rewrite app_nil_r.
    + exists (S n). now rewrite <- alternation_snoc, Hp.
Qed.

Lemma passes_alternating ins : forall w,
  in_step w -> alternating_history (world_of (passes cfg ins w)).
Proof.
  induction ins as [|i ins IH]; intros w Hin; cbn.
  - now apply in_step_alternating.
  - pose proof (loop_in_step (feed i w) Hin) as H.
    destruct (loop cfg (feed i w)) as [[] w1|w1]; [now apply IH|exact H].
Qed.

Lemma sketch_alternating boot ins :
  alternating_history (world_of (sketch cfg boot ins)).
Proof.
  unfold sketch.
  destruct (answers_split (net boot)) as [(n & rest & Hl) | (n & Hl)].
  - rewrite (setup_connected boot n rest Hl).
    apply passes_alternating. intros c. exists 0%nat.
    split; [apply events_setup_calls|reflexivity].
  - destruct (setup_waiting boot n Hl) as (w & -> & Hw).
    intros c. exists 0%nat. apply Hw.
Qed.

End Reachable.


Lemma count_failures n : count_occ Bool.bool_dec (repeat false n) true = 0%nat.
Proof. induction n as [|n IH]; [reflexivity|exact IH]. Qed.

(** ** Single passes under the conditions of the scenarios *)

Section Steps.

Variable cfg : Config.
Hypothesis cfg_ok : Config_ok cfg.

Notation "'THRESHOLD'" := (VIBRATION_MONITORING_THRESHOLD cfg).
Notation "'STOPPED_MS'" :=
  (milliseconds (VIBRATION_STOPPED_TIME_DELAY_SECONDS cfg)).
Notation "'RESET_MS'" :=
  (milliseconds (VIBRATION_COUNTER_RESET_DELAY_SECONDS cfg)).




Lemma level_inj a b : level a = level b -> a = b.
Proof. destruct a, b; unfold level, HIGH, LOW; congruence. Qed.







End Steps.


(** * The claims *)







(** C7. For either lifecycle event the notification procedure serves the
    two channels in the order [event], [event2], each exactly once: it
    calls [connect()] until it returns true, then sets the event's message
    on slot 1, then posts.  Failed connections only make it retry: it
    returns as soon as the network has answered true twice, and until then
    it is still waiting, having used every answer and left the globals
    alone; there is no other outcome. *)
Theorem notification_contract (e : Lifecycle) (w : World) :
  (forall n1 n2 rest,
     link w = repeat false n1 ++ true :: repeat false n2 ++ true :: rest ->
     notification e w
     = Done tt (said (delivery event n1 e ++ delivery event2 n2 e) rest w))
  /\ ((exists w', notification e w = Done tt w')
      <-> (2 <= count_occ Bool.bool_dec (link w) true)%nat)
  /\ (forall w',
        notification e w = Blocked w' -> mem w' = mem w /\ link w' = []).
Proof.
  split; [|split].
  - intros n1 n2 rest. apply notification_delivered.
  - destruct (notification_outcome e w)
      as [(n1 & n2 & rest & Hl & H) | [(n & Hl & H) | (n1 & n2 & Hl & H)]];
      rewrite H, Hl, ?count_occ_app, ?count_failures; cbn;
      rewrite ?count_occ_app, ?count_failures; cbn.
    + split; [lia|]. intros _. eexists. reflexivity.
    + split; [intros (w' & Hw); discriminate | lia].
    + split; [intros (w' & Hw); discriminate | lia].
  - intros w' Hb.
    destruct (notification_outcome e w)
      as [(n1 & n2 & rest & Hl & H) | [(n & Hl & H) | (n1 & n2 & Hl & H)]];
      rewrite H in Hb; [discriminate| |]; injection Hb as <-; now split.
Qed.

(** C8. After [setup] and before any pass of [loop] the detector is
    Accumulating ([vibrationState] 1), the vibration count is 0, the stored
    sensor level is LOW and the stored timestamp is the value [millis()] had
    in [setup] (kept in a [long]; read back as [unsigned long] it is that
    value, so no time has elapsed).  In every reachable world exactly one
    of the two detector states is active. *)
Theorem setup_initial_state (cfg : Config) :
  (forall boot w,
     setup (power_on boot) = Done tt w ->
     detector w = Some Accumulating
     /\ vibrationCounter (mem w) = 0
     /\ previousVibrationValue (mem w) = LOW
     /\ lastVibrationStateChange (mem w) = to_s32 (to_u32 (at_ms boot))
     /\ to_u32 (lastVibrationStateChange (mem w)) = to_u32 (at_ms boot)
     /\ elapsed (at_ms boot) w = 0)
  /\ (forall w, reachable cfg w -> exists! d, detector w = Some d).
Proof.
  split.
  - intros boot w H. destruct (setup_done boot w H) as (n & rest & _ & ->).
    unfold elapsed; cbn.
    rewrite to_u32_to_s32, !to_u32_idem, Z.sub_diag. repeat split.
  - intros w Hr. unfold detector.
    destruct (reachable_two_states cfg w Hr) as [-> | ->]; cbn.
    + exists Accumulating. split; [reflexivity|]. now intros d [= <-].
    + exists MonitoringForStop. split; [reflexivity|]. now intros d [= <-].
Qed.

(** C9. Whenever [vibrationState] is 0 (MonitoringForStop) at a pass
    boundary, [vibrationCounter] is 0: [checkVibrationCounter] zeroes it
    when it enters the state, and [checkForVibration] neither increments
    nor resets it there. *)
Theorem monitoring_counter_zero (cfg : Config) :
  (forall w,
     reachable cfg w ->
     vibrationState (mem w) = 0 -> vibrationCounter (mem w) = 0)
  /\ (forall w w',
        vibrationState (mem w) = 1 ->
        checkVibrationCounter cfg w = Done tt w' ->
        vibrationState (mem w') = 0 -> vibrationCounter (mem w') = 0)
  /\ (forall w w1,
        vibrationState (mem w) = 0 ->
        checkForVibration cfg w = Done tt w1 ->
        vibrationState (mem w1) = 0
        /\ vibrationCounter (mem w1) = vibrationCounter (mem w)).
Proof.
  split; [|split].
  - intros w Hr H0.
    destruct (reachable_well_formed cfg w Hr) as [[H1 | [_ Hc]] _];
      [congruence|exact Hc].
  - intros w w' H1 H H0.
    destruct (Z.le_gt_cases (vibrationCounter (mem w))
                (VIBRATION_MONITORING_THRESHOLD cfg)) as [Hle|Hgt].
    + rewrite checkVibrationCounter_below in H by exact Hle.
      injection H as <-. congruence.
    + rewrite checkVibrationCounter_above in H by exact Hgt.
      destruct (notification_cases CycleStarted
                  (monitoring w)) as [(rest & tr & _ & Hn) | (tr & _ & Hn)];
        unfold monitoring in Hn; rewrite Hn in H; [|discriminate].
      injection H as <-. reflexivity.
  - intros w w1 H0 H. rewrite checkForVibration_tracked in H.
    injection H as <-. rewrite tracked_state, tracked_counter, H0; cbn.
    split; [reflexivity|]. now destruct (edge w).
Qed.

(** C10. Over every execution from power-on, finished or still blocked in
    a retry loop, the lifecycle events handed to a channel alternate: the
    first one is CycleStarted, every CycleStopped comes right after a
    CycleStarted, and no two consecutive events are equal. *)
Theorem lifecycle_events_alternate
    (cfg : Config) (boot : Input) (ins : list Input) (c : Channel) :
  let evs := events c (out (world_of (sketch cfg boot ins))) in
  evs = alternation (List.length evs) CycleStarted
  /\ (forall e, nth_error evs 0 = Some e -> e = CycleStarted)
  /\ (forall k,
        nth_error evs k = Some CycleStopped ->
        exists j, k = S j /\ nth_error evs j = Some CycleStarted)
  /\ (forall k a b,
        nth_error evs k = Some a -> nth_error evs (S k) = Some b -> a <> b).
Proof.
  intros evs. destruct (sketch_alternating cfg boot ins c) as (n & Hn).
  fold evs in Hn. rewrite Hn.
  rewrite length_alternation. split; [reflexivity|]. clear evs Hn.
  repeat split.
  - intros e. rewrite nth_alternation. destruct (0 <? n)%nat; now intros [= <-].
  - intros k. rewrite nth_alternation.
    destruct (k <? n)%nat eqn:Hk; [|discriminate].
    destruct k as [|j]; [discriminate|]. intros H. exists j.
    split; [reflexivity|]. rewrite nth_alternation.
    apply Nat.ltb_lt in Hk.
    destruct (Nat.ltb_spec j n) as [_|Hj]; [|lia].
    rewrite Nat.even_succ, <- Nat.negb_even in H.
    now destruct (Nat.even j).
  - intros k a b. rewrite !nth_alternation.
    destruct (k <? n)%nat; [|discriminate].
    destruct (S k <? n)%nat; [|discriminate].
    rewrite Nat.even_succ, <- Nat.negb_even.
    destruct (Nat.even k); cbn; intros [= <-] [= <-]; discriminate.
Qed.

(** * The claims on concrete executions *)


Lemma scenario_ok : Config_ok scenario.
Proof. split; cbn; lia. Qed.

Lemma five_edges_reachable :
  reachable scenario (world_of (sketch scenario boot_at_1s five_edges)).
Proof.
  apply (sketch_reachable scenario boot_at_1s five_edges). now vm_compute.
Qed.

Lemma six_edges_reachable :
  reachable scenario (world_of (sketch scenario boot_at_1s six_edges)).
Proof.
  apply (sketch_reachable scenario boot_at_1s six_edges). now vm_compute.
Qed.








Lemma notification_contract_witness :
  notification CycleStopped across_the_wrap
  = Done tt (said (delivery event 0 CycleStopped
                   ++ delivery event2 0 CycleStopped) [] across_the_wrap).
Proof.
  apply (proj1 (notification_contract CycleStopped across_the_wrap) 0%nat
           0%nat []).
  reflexivity.
Defined.

Lemma setup_initial_state_witness :
  detector (world_of (setup (power_on boot_at_1s))) = Some Accumulating
  /\ exists! d,
       detector (world_of (sketch scenario boot_at_1s six_edges)) = Some d.
Proof.
  split.
  - apply (proj1 (setup_initial_state scenario) boot_at_1s).
    vm_compute; reflexivity.
  - apply (proj2 (setup_initial_state scenario)).
    exact six_edges_reachable.
Defined.

Lemma monitoring_counter_zero_witness :
  vibrationCounter (mem (world_of (sketch scenario boot_at_1s six_edges))) = 0.
Proof.
  apply (proj1 (monitoring_counter_zero scenario)).
  - exact six_edges_reachable.
  - vm_compute; reflexivity.
Defined.

Lemma lifecycle_events_alternate_witness :
  exists j,
    1%nat = S j
    /\ nth_error
         (events event (out (world_of (sketch scenario boot_at_1s full_cycle))))
         j = Some CycleStarted.
Proof.
  pose proof (lifecycle_events_alternate scenario boot_at_1s full_cycle event)
    as H.
  cbv zeta in H. destruct H as (_ & _ & H & _).
  apply (H 1%nat). vm_compute; reflexivity.
Defined.


(** * Further properties of the sketch *)

(** ** Helpers *)


Lemma delayed_app tr tr' : delayed (tr ++ tr') = delayed tr + delayed tr'.
Proof.
  induction tr as [|x tr IH]; [reflexivity|].
  destruct x; cbn [app delayed]; rewrite ?IH; lia.
Qed.

Lemma delayed_retries failed body n :
  delayed (retries failed body n)
  = Z.of_nat n * delayed (failed :: body).
Proof.
  unfold retries. induction n as [|n IH]; [reflexivity|].
  cbn [repeat List.concat]. rewrite delayed_app, IH. lia.
Qed.

Lemma delayed_delivery c n e : delayed (delivery c n e) = 100.
Proof.
  unfold delivery. rewrite delayed_app, delayed_retries. cbn [delayed]. lia.
Qed.





Section MoreSteps.

Variable cfg : Config.
Hypothesis cfg_ok : Config_ok cfg.

Notation "'THRESHOLD'" := (VIBRATION_MONITORING_THRESHOLD cfg).
Notation "'STOPPED_MS'" :=
  (milliseconds (VIBRATION_STOPPED_TIME_DELAY_SECONDS cfg)).

Lemma reachable_in_step w : reachable cfg w -> in_step w.
Proof.
  induction 1 as [boot w H | i w w' _ IH H].
  - destruct (setup_done boot w H) as (n & rest & _ & ->).
    intros c. exists 0%nat. split; [apply events_setup_calls|reflexivity].
  - pose proof (loop_in_step cfg (feed i w) IH) as Hs. now rewrite H in Hs.
Qed.




End MoreSteps.

(** ** The properties *)


(** X2. At every pass boundary the vibration counter lies between 0 and
    the threshold, and the count [checkForVibration] leaves is at most one
    above the threshold: with a threshold below [INT_MAX] the increment
    [vibrationCounter++] never overflows the [int]. *)
Theorem counter_stays_in_range (cfg : Config) (w : World) :
  Config_ok cfg ->
  reachable cfg w ->
  0 <= vibrationCounter (mem w) <= VIBRATION_MONITORING_THRESHOLD cfg
  /\ forall i w1,
       checkForVibration cfg (feed i w) = Done tt w1 ->
       0 <= vibrationCounter (mem w1)
            <= VIBRATION_MONITORING_THRESHOLD cfg + 1
       /\ vibrationCounter (mem w1) < 2 ^ 31
       /\ (vibrationCounter (mem w1) = vibrationCounter (mem w) + 1
           \/ vibrationCounter (mem w1) = vibrationCounter (mem w)
           \/ vibrationCounter (mem w1) = 0).
Proof.
  intros Hok Hr. pose proof (reachable_bounded cfg w Hok Hr) as Hb.
  destruct Hok as [HT _ _]. unfold bounded in Hb. split; [exact Hb|].
  intros i w1 H. rewrite checkForVibration_tracked in H. injection H as <-.
  rewrite tracked_counter. cbn [feed mem].
  destruct (edge (feed i w)).
  - destruct (vibrationState (mem w) =? 1); [|lia].
    rewrite to_s32_small by lia. lia.
  - destruct (_ && _); lia.
Qed.



(** X5. [startedTime] is written only by the pass that starts a cycle,
    which stores the [millis()] value of that pass; every other completed
    pass leaves it as it was. *)
Theorem startedTime_records_start
    (cfg : Config) (w : World) (i : Input) (w' : World) :
  loop cfg (feed i w) = Done tt w' ->
  (vibrationState (mem w) = 1 /\ vibrationState (mem w') = 0
   /\ startedTime (mem w') = to_s32 (to_u32 (at_ms i)))
  \/ (startedTime (mem w') = startedTime (mem w)
      /\ ~ (vibrationState (mem w) = 1 /\ vibrationState (mem w') = 0)).
Proof.
  intros H. pose proof (loop_cases cfg (feed i w)) as Hc. rewrite H in Hc.
  pose proof (tracked_state cfg (feed i w)) as Hs. cbn [feed mem] in Hs.
  pose proof (tracked_startedTime cfg (feed i w)) as Ht. cbn [feed mem] in Ht.
  destruct (tracked_io cfg (feed i w)) as (_ & Hck & _ & _).
  cbn [feed clock] in Hck.
  inversion Hc as [Hstay | rest tr H1 _ _ | | rest tr H0 _ _ | ];
    subst; cbn [feed mem] in *.
  - right. split; [exact Ht|]. rewrite Hs. lia.
  - left. cbn. rewrite Hck. auto.
  - right. cbn. split; [exact Ht|]. lia.
Qed.

(** X6. A completed pass talks to the outside world only when it changes
    the state.  If the state is unchanged so is the trace; if the state
    changes, the pass has made exactly the calls of one notification of the
    announced event on [event] and then on [event2], printed the new
    state's banner and ended with [delay(60*1000)], spending 60200 ms in
    [delay()] in all. *)
Theorem calls_only_on_transitions
    (cfg : Config) (w : World) (i : Input) (w' : World) :
  loop cfg (feed i w) = Done tt w' ->
  (vibrationState (mem w') = vibrationState (mem w) /\ out w' = out w)
  \/ (vibrationState (mem w') <> vibrationState (mem w)
      /\ exists n1 n2 tr,
           let e := announced (vibrationState (mem w)) in
           tr = delivery event n1 e ++ delivery event2 n2 e ++ tail_of e
           /\ out w' = out w ++ tr
           /\ delayed tr = 60200
           /\ net i = repeat false n1 ++ true :: repeat false n2
                      ++ true :: link w').
Proof.
  intros H. pose proof (loop_cases cfg (feed i w)) as Hc. rewrite H in Hc.
  pose proof (tracked_state cfg (feed i w)) as Hs. cbn [feed mem] in Hs.
  destruct (tracked_io cfg (feed i w)) as (_ & _ & _ & Ho).
  cbn [feed out] in Ho.
  inversion Hc as [Hstay | rest tr H1 _ Hd | | rest tr H0 _ Hd | ];
    subst; cbn [feed mem link] in *.
  - left. now split.
  - right. cbn. rewrite H1. split; [lia|].
    destruct Hd as (n1 & n2 & Hl & ->).
    exists n1, n2. eexists. cbv zeta. unfold announced; cbn.
    split; [reflexivity|]. rewrite Ho. split; [now list_norm|].
    split; [|exact Hl].
    rewrite !delayed_app, !delayed_delivery. reflexivity.
  - right. cbn. rewrite H0. split; [lia|].
    destruct Hd as (n1 & n2 & Hl & ->).
    exists n1, n2. eexists. cbv zeta. unfold announced; cbn.
    split; [reflexivity|]. rewrite Ho. split; [now list_norm|].
    split; [|exact Hl].
    rewrite !delayed_app, !delayed_delivery. reflexivity.
Qed.



(** X9. A pass blocks only inside a notification, with fewer than two
    successful [connect()] answers, and the blocked world is always in
    state 0: a start has already switched the state, zeroed the counter
    and stored [startedTime] before it notifies, whereas a stop notifies
    first and has not yet touched the state or the counter. *)
Theorem blocked_pass_state
    (cfg : Config) (w : World) (i : Input) (wb : World) :
  loop cfg (feed i w) = Blocked wb ->
  vibrationState (mem wb) = 0
  /\ link wb = []
  /\ (count_occ Bool.bool_dec (net i) true < 2)%nat
  /\ (vibrationState (mem w) = 1
      /\ vibrationCounter (mem wb) = 0
      /\ startedTime (mem wb) = to_s32 (to_u32 (at_ms i))
      \/ vibrationState (mem w) = 0
         /\ startedTime (mem wb) = startedTime (mem w)
         /\ exists w1, checkForVibration cfg (feed i w) = Done tt w1
                       /\ mem wb = mem w1).
Proof.
  intros H. pose proof (loop_cases cfg (feed i w)) as Hc. rewrite H in Hc.
  pose proof (tracked_state cfg (feed i w)) as Hs. cbn [feed mem] in Hs.
  pose proof (tracked_startedTime cfg (feed i w)) as Ht. cbn [feed mem] in Ht.
  destruct (tracked_io cfg (feed i w)) as (_ & Hck & _ & _).
  cbn [feed clock] in Hck.
  assert (Hfew : forall e tr, waiting e (net i) tr ->
                 (count_occ Bool.bool_dec (net i) true < 2)%nat).
  { intros e tr [(n & -> & _) | (n1 & n2 & -> & _)];
      rewrite ?count_occ_app, ?count_failures; cbn;
      rewrite ?count_failures; lia. }
  inversion Hc as [ | | tr H1 _ Hw | | tr H0 _ Hw]; subst;
    cbn [feed mem link] in *.
  - cbn [said monitoring with_mem mem link vibrationState vibrationCounter
         startedTime]. rewrite Hck.
    split; [reflexivity|]. split; [reflexivity|].
    split; [exact (Hfew _ _ Hw)|]. left. auto.
  - cbn [said with_mem mem link]. rewrite Hs.
    split; [exact H0|]. split; [reflexivity|].
    split; [exact (Hfew _ _ Hw)|]. right.
    split; [exact H0|]. split; [exact Ht|].
    eexists. split; [apply checkForVibration_tracked|reflexivity].
Qed.

(** X10. At every pass boundary the detector is in MonitoringForStop
    exactly when the last lifecycle event handed to a channel is
    CycleStarted: no cycle is left open in Accumulating and none is closed
    in MonitoringForStop. *)
Theorem state_matches_last_event (cfg : Config) (w : World) (c : Channel) :
  reachable cfg w ->
  (vibrationState (mem w) = 0
   <-> last (events c (out w)) CycleStopped = CycleStarted)
  /\ (vibrationState (mem w) = 1
      <-> last (events c (out w)) CycleStopped = CycleStopped).
Proof.
  intros Hr. destruct (reachable_in_step cfg w Hr c) as (n & Hn & Hp).
  pose proof (reachable_two_states cfg w Hr) as Hs.
  assert (Hlast : forall m,
            last (alternation m CycleStarted) CycleStopped
            = if Nat.even m then CycleStopped else CycleStarted).
  { induction m as [|m IH]; [reflexivity|].
    rewrite <- alternation_snoc, last_last, Nat.even_succ, <- Nat.negb_even.
    now destruct (Nat.even m). }
  rewrite Hn, Hlast, Hp.
  destruct Hs as [-> | ->]; cbn; split; split; intros; congruence || lia.
Qed.

(** X11. At every pass boundary both channels have been handed the same
    lifecycle events in the same order. *)
Theorem channels_agree (cfg : Config) (w : World) :
  reachable cfg w -> events event (out w) = events event2 (out w).
Proof.
  induction 1 as [boot w H | i w w' _ IH H].
  - destruct (setup_done boot w H) as (n & rest & _ & ->).
    cbn [booted out]. now rewrite !events_setup_calls.
  - pose proof (loop_cases cfg (feed i w)) as Hc. rewrite H in Hc.
    destruct (tracked_io cfg (feed i w)) as (_ & _ & _ & Ho).
    cbn [feed out] in Ho.
    inversion Hc as [_ | rest tr _ _ Hd | | rest tr _ _ Hd | ]; subst.
    + now rewrite Ho.
    + cbn [said monitoring counting with_mem out].
      rewrite Ho, !events_app, IH.
      now rewrite !(events_delivered _ _ _ _ _ Hd).
    + cbn [said monitoring counting with_mem out].
      rewrite Ho, !events_app, IH.
      now rewrite !(events_delivered _ _ _ _ _ Hd).
Qed.


(** ** The properties on concrete executions *)


Lemma full_cycle_reachable :
  reachable scenario (world_of (sketch scenario boot_at_1s full_cycle)).
Proof.
  apply (sketch_reachable scenario boot_at_1s full_cycle). now vm_compute.
Qed.


Lemma counter_stays_in_range_witness :
  0 <= vibrationCounter
         (mem (world_of (sketch scenario boot_at_1s five_edges)))
    <= VIBRATION_MONITORING_THRESHOLD scenario.
Proof.
  apply (counter_stays_in_range scenario
           (world_of (sketch scenario boot_at_1s five_edges))
           scenario_ok five_edges_reachable).
Defined.



Lemma startedTime_records_start_witness :
  startedTime (mem (world_of (sketch scenario boot_at_1s six_edges))) = 2005.
Proof.
  destruct (startedTime_records_start scenario
              (world_of (sketch scenario boot_at_1s five_edges))
              (reading false 2005)
              (world_of (sketch scenario boot_at_1s six_edges)))
    as [(_ & _ & H) | (_ & H)].
  - vm_compute; reflexivity.
  - rewrite H. vm_compute; reflexivity.
  - exfalso. apply H. split; vm_compute; reflexivity.
Defined.

Lemma calls_only_on_transitions_witness :
  vibrationState (mem (world_of (sketch scenario boot_at_1s six_edges)))
  = vibrationState (mem (world_of (sketch scenario boot_at_1s five_edges)))
    /\ out (world_of (sketch scenario boot_at_1s six_edges))
       = out (world_of (sketch scenario boot_at_1s five_edges))
  \/ vibrationState (mem (world_of (sketch scenario boot_at_1s six_edges)))
     <> vibrationState (mem (world_of (sketch scenario boot_at_1s five_edges)))
     /\ exists n1 n2 tr,
          let e :=
            announced
              (vibrationState
                 (mem (world_of (sketch scenario boot_at_1s five_edges)))) in
          tr = delivery event n1 e ++ delivery event2 n2 e ++ tail_of e
          /\ out (world_of (sketch scenario boot_at_1s six_edges))
             = out (world_of (sketch scenario boot_at_1s five_edges)) ++ tr
          /\ delayed tr = 60200
          /\ net (reading false 2005)
             = repeat false n1 ++ true :: repeat false n2 ++ true
               :: link (world_of (sketch scenario boot_at_1s six_edges)).
Proof.
  apply (calls_only_on_transitions scenario
           (world_of (sketch scenario boot_at_1s five_edges))
           (reading false 2005)
           (world_of (sketch scenario boot_at_1s six_edges))).
  vm_compute; reflexivity.
Defined.



Lemma blocked_pass_state_witness :
  vibrationState
    (mem (world_of
            (loop scenario
               (feed starved_edge
                  (world_of (sketch scenario boot_at_1s five_edges)))))) = 0.
Proof.
  apply (blocked_pass_state scenario
           (world_of (sketch scenario boot_at_1s five_edges)) starved_edge).
  vm_compute; reflexivity.
Defined.

Lemma state_matches_last_event_witness :
  vibrationState (mem (world_of (sketch scenario boot_at_1s six_edges))) = 0
  <-> last (events event
              (out (world_of (sketch scenario boot_at_1s six_edges))))
        CycleStopped = CycleStarted.
Proof.
  apply (state_matches_last_event scenario
           (world_of (sketch scenario boot_at_1s six_edges)) event).
  exact six_edges_reachable.
Defined.

Lemma channels_agree_witness :
  events event (out (world_of (sketch scenario boot_at_1s full_cycle)))
  = events event2 (out (world_of (sketch scenario boot_at_1s full_cycle))).
Proof.
  apply (channels_agree scenario). exact full_cycle_reachable.
Defined.

